(** * pelicanconf.py: the settings module of the HATE THAT CODE site

    The repository is one Python module, [pelicanconf.py], made of a
    [from __future__ import] line and nineteen top-level assignments whose
    right-hand sides are literals.  This development embeds

    - the values the module binds (strings, [None], booleans, integers,
      tuples and one dict),
    - the fragment of Python's expression and statement syntax a settings
      module is written in, with the evaluation of a module body into its
      namespace (the module's [__dict__]), and
    - the module itself, statement by statement, in source order,

    and proves the properties the specification states about the settings.

    Python 3 semantics is followed: [None], [True] and [False] are
    constants, a dict keeps the insertion order of its keys.  A string is
    held as the UTF-8 bytes it has in the source file (the file declares
    [coding: utf-8]). *)

From Stdlib Require Import ZArith String Ascii List Bool Lia.
From stdpp Require Import base option list strings gmap fin_maps.

#[local] Set Warnings "-register-all".

Local Open Scope string_scope.
Local Open Scope Z_scope.
Local Open Scope list_scope.

(** ** Values *)

Module Py.

(** Objects a settings module can bind.  [VFeature] is the [_Feature]
    object a [from __future__ import] binds to the imported name. *)
Inductive value : Type :=
| VNone
| VBool (b : bool)
| VInt (n : Z)
| VStr (s : string)
| VTuple (items : list value)
| VDict (entries : list (value * value))
| VFeature (name : string).

(** Exceptions evaluation can raise in this fragment. *)
Inductive exn : Type :=
| NameError (id : string)
| TypeError (what : string)
| SyntaxError (what : string).

Inductive result (A : Type) : Type :=
| Ok (a : A)
| Raise (e : exn).
Arguments Ok {A} a.
Arguments Raise {A} e.

#[global] Instance result_ret : MRet result := fun A a => Ok a.

#[global] Instance result_bind : MBind result := fun A B k r =>
  match r with
  | Ok a => k a
  | Raise e => Raise e
  end.

(** *** Hashing and key equality

    [hash(v)] raises [TypeError] for a dict and for a tuple with an
    unhashable item. *)
Fixpoint hashable (v : value) : bool :=
  match v with
  | VDict _ => false
  | VTuple items => forallb hashable items
  | _ => true
  end.

(** [bool] is a subclass of [int]: [True == 1] and [False == 0]. *)
Definition as_int (v : value) : option Z :=
  match v with
  | VInt n => Some n
  | VBool b => Some (if b then 1 else 0)
  | _ => None
  end.

(** Python's [==] on hashable values, as dict lookup uses it. *)
Fixpoint py_eq (a b : value) : bool :=
  match a, b with
  | VNone, VNone => true
  | (VBool _ | VInt _), (VBool _ | VInt _) =>
      match as_int a, as_int b with
      | Some x, Some y => Z.eqb x y
      | _, _ => false
      end
  | VStr s, VStr t => String.eqb s t
  | VTuple xs, VTuple ys =>
      (fix all2 (xs ys : list value) : bool :=
         match xs, ys with
         | [], [] => true
         | x :: xs', y :: ys' => py_eq x y && all2 xs' ys'
         | _, _ => false
         end) xs ys
  | VFeature s, VFeature t => String.eqb s t
  | _, _ => false
  end.

(** [d[k] = v] on the entries of a dict: an existing key keeps its place
    and takes the new value, a new key is appended. *)
Fixpoint dict_setitem (d : list (value * value)) (k v : value)
  : list (value * value) :=
  match d with
  | [] => [(k, v)]
  | (k', v') :: d' =>
      if py_eq k' k then (k', v) :: d' else (k', v') :: dict_setitem d' k v
  end.

(** The entry [d.get(k)] finds for a key that hashes; the hashing itself
    is [dict_get_checked]'s. *)
Fixpoint dict_get (d : list (value * value)) (k : value) : option value :=
  match d with
  | [] => None
  | (k', v') :: d' => if py_eq k' k then Some v' else dict_get d' k
  end.

Definition dict_keys (d : list (value * value)) : list value := map fst d.

(** ** Syntax *)

Inductive constant : Type :=
| CNone
| CBool (b : bool)
| CInt (n : Z)
| CStr (s : string).

(** Expressions: [ast.Constant], [ast.Name], [ast.Tuple], [ast.Dict]. *)
Inductive expr : Type :=
| Constant (c : constant)
| Name (id : string)
| Tuple (elts : list expr)
| Dict (items : list (expr * expr)).

(** Statements: [from __future__ import feature] and [target = value]. *)
Inductive stmt : Type :=
| FutureImport (feature : string)
| Assign (target : string) (rhs : expr).

Definition module := list stmt.

(** ** Evaluation *)

(** A namespace: the dict from names to the objects they are bound to. *)
Abbreviation namespace := (gmap string value).

Definition value_of_constant (c : constant) : value :=
  match c with
  | CNone => VNone
  | CBool b => VBool b
  | CInt n => VInt n
  | CStr s => VStr s
  end.

(** The items of a dict display, stored one by one into the entries [d]
    built so far: key then value of each item are evaluated by [ev], left
    to right; an unhashable key raises [TypeError]. *)
Definition eval_items (ev : expr -> result value)
  : list (expr * expr) -> list (value * value) -> result (list (value * value)) :=
  fix go its d :=
    match its with
    | [] => Ok d
    | (ek, ex) :: its' =>
        k ← ev ek;
        v ← ev ex;
        if hashable k then go its' (dict_setitem d k v)
        else Raise (TypeError "unhashable type")
    end.

(** Evaluation of an expression in a namespace.  A name that is not bound
    raises [NameError]; a tuple display evaluates its elements left to
    right. *)
Fixpoint eval (ns : namespace) (e : expr) : result value :=
  match e with
  | Constant c => Ok (value_of_constant c)
  | Name id =>
      match ns !! id with
      | Some v => Ok v
      | None => Raise (NameError id)
      end
  | Tuple elts => vs ← mapM (eval ns) elts; Ok (VTuple vs)
  | Dict items => d ← eval_items (eval ns) items []; Ok (VDict d)
  end.

(** The feature names [__future__] defines; another name is rejected when
    the module is compiled. *)
Definition future_features : list string :=
  [ "nested_scopes"; "generators"; "division"; "absolute_import";
    "with_statement"; "print_function"; "unicode_literals";
    "barry_as_FLUFL"; "generator_stop"; "annotations" ].

Definition exec_stmt (ns : namespace) (s : stmt) : result namespace :=
  match s with
  | FutureImport feature =>
      if existsb (String.eqb feature) future_features
      then Ok (<[feature := VFeature feature]> ns)
      else Raise (SyntaxError "future feature is not defined")
  | Assign target rhs =>
      v ← eval ns rhs; Ok (<[target := v]> ns)
  end.

(** Executing a module body: its statements in order, each in the
    namespace the previous one left.  Where a [from __future__ import] may
    stand is the compiler's business, [future_imports_first] below. *)
Fixpoint exec_module (m : module) (ns : namespace) : result namespace :=
  match m with
  | [] => Ok ns
  | s :: m' => ns' ← exec_stmt ns s; exec_module m' ns'
  end.

(** *** What a module reads and what it binds *)

(** The names an expression loads from the namespace. *)
Fixpoint names_read (e : expr) : list string :=
  match e with
  | Constant _ => []
  | Name id => [id]
  | Tuple elts => flat_map names_read elts
  | Dict items =>
      flat_map (fun kv => names_read (fst kv) ++ names_read (snd kv)) items
  end.

(** A literal: a display built from constants alone. *)
Definition literal (e : expr) : Prop := names_read e = [].

(** The name a statement binds. *)
Definition binds (s : stmt) : string :=
  match s with
  | FutureImport feature => feature
  | Assign target _ => target
  end.

(** The fields of a settings module: the targets of its assignments, in
    source order. *)
Definition fields (m : module) : list string :=
  flat_map (fun s => match s with
                     | Assign target _ => [target]
                     | FutureImport _ => []
                     end) m.

(** The names a statement loads from the namespace it runs in. *)
Definition stmt_reads (s : stmt) : list string :=
  match s with
  | FutureImport _ => []
  | Assign _ rhs => names_read rhs
  end.

Definition module_reads (m : module) : list string := flat_map stmt_reads m.

End Py.

Import Py.

(** ** The module *)

(** A string literal, and the display of a (label, URL) tuple. *)
Definition str (s : string) : expr := Constant (CStr s).
Definition link (label url : string) : expr := Tuple [str label; str url].

(** The right-hand sides of the assignments, each under the name it is
    assigned to. *)
Definition AUTHOR : expr := str "José San Gil".
Definition SITENAME : expr := str "HATE THAT CODE".
Definition SITESUBTITLE : expr := str "by josé san gil".
Definition SITEURL : expr := str "".

Definition PATH : expr := str "content".

Definition TIMEZONE : expr := str "Europe/Madrid".

Definition DEFAULT_LANG : expr := str "en".

(** Feed generation is usually not desired when developing. *)
Definition FEED_ALL_ATOM : expr := Constant CNone.
Definition CATEGORY_FEED_ATOM : expr := Constant CNone.
Definition TRANSLATION_FEED_ATOM : expr := Constant CNone.
Definition AUTHOR_FEED_ATOM : expr := Constant CNone.
Definition AUTHOR_FEED_RSS : expr := Constant CNone.

(** Google Analytics. *)
Definition GOOGLE_ANALYTICS : expr := str "UA-11146701-2".

(** Blogroll. *)
Definition LINKS : expr :=
  Tuple [ link "Pelican" "http://getpelican.com/";
          link "Python.org" "http://python.org/";
          link "Jinja2" "http://jinja.pocoo.org/";
          link "You can modify those links in your config file" "#" ].

(** Social widget. *)
Definition SOCIAL : expr :=
  Tuple [ link "You can add links in your config file" "#";
          link "Another social link" "#" ].

Definition DEFAULT_PAGINATION : expr := Constant (CInt 10).

Definition DISPLAY_PAGES_ON_MENU : expr := Constant (CBool false).

Definition THEME : expr := str "themes/hatethatcode".

Definition DEFAUT_METADATA : expr := Dict [ (str "status", str "draft") ].

(** [pelicanconf.py]: its statements in source order. *)
Definition pelicanconf : module :=
  [ FutureImport "unicode_literals";
    Assign "AUTHOR" AUTHOR;
    Assign "SITENAME" SITENAME;
    Assign "SITESUBTITLE" SITESUBTITLE;
    Assign "SITEURL" SITEURL;
    Assign "PATH" PATH;
    Assign "TIMEZONE" TIMEZONE;
    Assign "DEFAULT_LANG" DEFAULT_LANG;
    Assign "FEED_ALL_ATOM" FEED_ALL_ATOM;
    Assign "CATEGORY_FEED_ATOM" CATEGORY_FEED_ATOM;
    Assign "TRANSLATION_FEED_ATOM" TRANSLATION_FEED_ATOM;
    Assign "AUTHOR_FEED_ATOM" AUTHOR_FEED_ATOM;
    Assign "AUTHOR_FEED_RSS" AUTHOR_FEED_RSS;
    Assign "GOOGLE_ANALYTICS" GOOGLE_ANALYTICS;
    Assign "LINKS" LINKS;
    Assign "SOCIAL" SOCIAL;
    Assign "DEFAULT_PAGINATION" DEFAULT_PAGINATION;
    Assign "DISPLAY_PAGES_ON_MENU" DISPLAY_PAGES_ON_MENU;
    Assign "THEME" THEME;
    Assign "DEFAUT_METADATA" DEFAUT_METADATA ].

(** The namespace the module has once loaded from an empty one. *)
Definition settings : namespace :=
  match exec_module pelicanconf ∅ with
  | Ok ns => ns
  | Raise _ => ∅
  end.

(** ** Shapes of the settings' values *)

(** [sub] occurs in [s]. *)
Fixpoint contains (sub s : string) : bool :=
  String.prefix sub s ||
  match s with
  | EmptyString => false
  | String _ s' => contains sub s'
  end.

(** The feed settings: the fields the module sets under the comment
    "Feed generation is usually not desired when developing", each with
    [FEED] in its name. *)
Definition is_feed_field (k : string) : bool := contains "FEED" k.

Definition feed_fields (m : module) : list string :=
  List.filter is_feed_field (fields m).

(** A feed setting is [None] (no feed) or the path of the feed, a string. *)
Definition is_feed_setting (v : value) : bool :=
  match v with
  | VNone | VStr _ => true
  | _ => false
  end.

(** An entry of a link list: a tuple of two strings, label and URL, none of
    them empty. *)
Definition is_link_entry (v : value) : bool :=
  match v with
  | VTuple [VStr label; VStr url] =>
      negb (String.eqb label "") && negb (String.eqb url "")
  | _ => false
  end.

(** [type(v).__hash__ is not None] all the way down: values of the
    immutable types ([NoneType], [bool], [int], [str], tuples of such). *)
Definition immutable (v : value) : bool := hashable v.

(** ** The bindings of a module, statement by statement *)

(** The object a statement binds to its name when nothing is in scope. *)
Definition stmt_value (s : stmt) : result value :=
  match s with
  | FutureImport feature =>
      if existsb (String.eqb feature) future_features
      then Ok (VFeature feature)
      else Raise (SyntaxError "future feature is not defined")
  | Assign _ rhs => eval ∅ rhs
  end.

(** The (name, object) pairs of a module whose statements all run. *)
Definition bindings (m : module) : result (list (string * value)) :=
  mapM (fun s => v ← stmt_value s; Ok (binds s, v)) m.

(** The module with the assignments of its feed settings taken out. *)
Definition without_feeds (m : module) : module :=
  List.filter (fun s => negb (is_feed_field (binds s))) m.

(** ** What the compiler and the dict check first *)

(** [from __future__ import] lines stand before every other statement of a
    module. *)
Fixpoint future_imports_first (m : module) : bool :=
  match m with
  | FutureImport _ :: m' => future_imports_first m'
  | _ => forallb (fun s => match s with
                           | Assign _ _ => true
                           | FutureImport _ => false
                           end) m
  end.

(** Loading a module from its text: it is compiled, which rejects a
    misplaced [from __future__ import] before anything runs, and then its
    body is executed. *)
Definition load (m : module) (ns : namespace) : result namespace :=
  if future_imports_first m then exec_module m ns
  else Raise (SyntaxError
    "from __future__ imports must occur at the beginning of the file").


(** ** Names and types *)

Definition is_ascii_upper (c : ascii) : bool :=
  (65 <=? nat_of_ascii c)%nat && (nat_of_ascii c <=? 90)%nat.

Definition is_ascii_lower (c : ascii) : bool :=
  (97 <=? nat_of_ascii c)%nat && (nat_of_ascii c <=? 122)%nat.

(** [str.isupper] on an ASCII string: there is a cased character and no
    cased character is lower-case. *)
Definition isupper (s : string) : bool :=
  existsb is_ascii_upper (list_ascii_of_string s) &&
  forallb (fun c => negb (is_ascii_lower c)) (list_ascii_of_string s).

(** [isinstance(v, str)], and the empty string among the strings. *)
Definition is_str (v : value) : bool :=
  match v with
  | VStr _ => true
  | _ => false
  end.

Definition is_empty_str (v : value) : bool :=
  match v with
  | VStr s => String.eqb s ""
  | _ => false
  end.

(** * Properties of evaluation *)

Section Evaluation.

(** Induction on expressions that reaches the elements of a display. *)
Lemma expr_nested_ind (P : expr -> Prop) :
  (forall c, P (Constant c)) ->
  (forall id, P (Name id)) ->
  (forall elts, Forall P elts -> P (Tuple elts)) ->
  (forall items, Forall (fun kv => P (fst kv) /\ P (snd kv)) items ->
                 P (Dict items)) ->
  forall e, P e.
Proof.
  intros HC HN HT HD. fix IH 1. intros [c | id | elts | items].
  - apply HC.
  - apply HN.
  - apply HT. induction elts as [| e elts IHelts]; constructor; auto.
  - apply HD. induction items as [| [k v] items IHitems]; constructor; auto.
Qed.

Lemma mapM_result_ext {A B} (f g : A -> result B) (l : list A) :
  Forall (fun x => f x = g x) l -> mapM f l = mapM g l.
Proof.
  induction 1 as [| x l Hx _ IH]; simpl; [reflexivity |].
  rewrite Hx, IH. reflexivity.
Qed.

Lemma eval_items_ext (f g : expr -> result value) items :
  Forall (fun kv => f (fst kv) = g (fst kv) /\ f (snd kv) = g (snd kv)) items ->
  forall d, eval_items f items d = eval_items g items d.
Proof.
  induction 1 as [| [ek ex] items [Hk Hx] _ IH]; intros d; simpl;
    [reflexivity |].
  simpl in Hk, Hx. rewrite Hk, Hx.
  destruct (g ek) as [k |]; simpl; [| reflexivity].
  destruct (g ex) as [v |]; simpl; [| reflexivity].
  destruct (hashable k); [apply IH | reflexivity].
Qed.

(** Evaluation looks at the namespace only under the names the
    expression reads. *)
Lemma eval_coincidence (e : expr) (ns1 ns2 : namespace) :
  (forall id, In id (names_read e) -> ns1 !! id = ns2 !! id) ->
  eval ns1 e = eval ns2 e.
Proof.
  induction e as [c | id | elts IH | items IH] using expr_nested_ind;
    intros Hagree; simpl.
  - reflexivity.
  - rewrite (Hagree id) by (simpl; auto). reflexivity.
  - rewrite (mapM_result_ext (eval ns1) (eval ns2) elts); [reflexivity |].
    simpl in Hagree. induction IH as [| e elts He _ IHelts]; constructor.
    + apply He. intros id Hid. apply Hagree. simpl. apply in_or_app. auto.
    + apply IHelts. intros id Hid. apply Hagree. simpl. apply in_or_app. auto.
  - rewrite (eval_items_ext (eval ns1) (eval ns2) items); [reflexivity |].
    simpl in Hagree.
    induction IH as [| [ek ex] items [Hk Hx] _ IHitems]; constructor.
    + simpl in *. split; [apply Hk | apply Hx]; intros id Hid; apply Hagree;
        apply in_or_app; left; apply in_or_app; auto.
    + apply IHitems. intros id Hid. apply Hagree. simpl. apply in_or_app. auto.
Qed.

End Evaluation.

(** * Properties of module execution *)

Section Execution.

Implicit Types (m : module) (s : stmt) (ns : namespace) (k : string).

(** A literal evaluates to the same result in every namespace. *)
Lemma eval_literal (e : expr) ns1 ns2 :
  literal e -> eval ns1 e = eval ns2 e.
Proof.
  unfold literal. intros Hlit. apply eval_coincidence.
  rewrite Hlit. intros id [].
Qed.

Lemma exec_module_app m1 m2 ns :
  exec_module (m1 ++ m2) ns = (ns' ← exec_module m1 ns; exec_module m2 ns').
Proof.
  revert ns. induction m1 as [| s m1 IH]; intros ns; simpl; [reflexivity |].
  destruct (exec_stmt ns s) as [ns' |]; simpl; [apply IH | reflexivity].
Qed.

(** A statement that runs binds its name and nothing else. *)
Lemma exec_stmt_binds ns s ns' :
  exec_stmt ns s = Ok ns' -> exists v, ns' = <[binds s := v]> ns.
Proof.
  destruct s as [feature | target rhs]; cbn [exec_stmt binds].
  - destruct (existsb (String.eqb feature) future_features);
      [| discriminate].
    intros [= <-]. eauto.
  - destruct (eval ns rhs) as [v |]; simpl; [| discriminate].
    intros [= <-]. eauto.
Qed.

(** A name no statement of [m] binds has after [m] the value it had
    before. *)
Lemma exec_module_other m ns ns' k :
  exec_module m ns = Ok ns' -> ~ In k (map binds m) -> ns' !! k = ns !! k.
Proof.
  revert ns. induction m as [| s m IH]; intros ns; simpl.
  - intros [= <-] _. reflexivity.
  - destruct (exec_stmt ns s) as [ns1 |] eqn:Hs; simpl; [| discriminate].
    intros Hm Hk. apply exec_stmt_binds in Hs as [v ->].
    rewrite (IH _ Hm) by tauto.
    apply lookup_insert_ne. tauto.
Qed.

Lemma module_reads_cons s m :
  module_reads (s :: m) = [] -> stmt_reads s = [] /\ module_reads m = [].
Proof. unfold module_reads. simpl. apply app_eq_nil. Qed.

Lemma module_reads_app m1 m2 :
  module_reads (m1 ++ m2) = [] -> module_reads m1 = [] /\ module_reads m2 = [].
Proof. unfold module_reads. rewrite flat_map_app. apply app_eq_nil. Qed.

(** A statement that reads no name does in a larger namespace what it
    does in a smaller one. *)
Lemma exec_stmt_frame s (a ns : namespace) :
  stmt_reads s = [] ->
  exec_stmt (a ∪ ns) s = (r ← exec_stmt a s; Ok (r ∪ ns)).
Proof.
  destruct s as [feature | target rhs]; cbn [exec_stmt stmt_reads];
    intros Hreads.
  - destruct (existsb (String.eqb feature) future_features); simpl;
      [| reflexivity].
    rewrite insert_union_l. reflexivity.
  - rewrite (eval_literal rhs (a ∪ ns) a Hreads).
    destruct (eval a rhs) as [v |]; simpl; [| reflexivity].
    rewrite insert_union_l. reflexivity.
Qed.

Lemma exec_module_frame m (a ns : namespace) :
  module_reads m = [] ->
  exec_module m (a ∪ ns) = (r ← exec_module m a; Ok (r ∪ ns)).
Proof.
  revert a. induction m as [| s m IH]; intros a Hreads; simpl; [reflexivity |].
  apply module_reads_cons in Hreads as [Hs Hm].
  rewrite (exec_stmt_frame s a ns Hs).
  destruct (exec_stmt a s) as [a' |]; simpl; [apply IH, Hm | reflexivity].
Qed.

(** In a module that reads no name and binds no name twice, a field has,
    from its assignment on, the value of its own right-hand side. *)
Lemma exec_assigned_once pre k (e : expr) post ns0 ns :
  module_reads (pre ++ Assign k e :: post) = [] ->
  NoDup (map binds (pre ++ Assign k e :: post)) ->
  exec_module (pre ++ Assign k e :: post) ns0 = Ok ns ->
  exists v, (forall ns1, eval ns1 e = Ok v) /\ ns !! k = Some v.
Proof.
  intros Hreads Hnodup. rewrite exec_module_app. simpl.
  destruct (exec_module pre ns0) as [ns1 |]; simpl; [| discriminate].
  destruct (eval ns1 e) as [v |] eqn:He; simpl; [| discriminate].
  intros Hpost. exists v. split.
  - intros ns2. rewrite <- He. apply eval_literal.
    apply module_reads_app in Hreads as [_ Hreads].
    apply module_reads_cons in Hreads as [Hreads _]. exact Hreads.
  - rewrite (exec_module_other _ _ _ k Hpost).
    + apply lookup_insert_eq.
    + rewrite map_app in Hnodup. simpl in Hnodup.
      apply NoDup_app in Hnodup as (_ & _ & Hnodup).
      apply NoDup_cons in Hnodup as [Hk _].
      rewrite <- list_elem_of_In. exact Hk.
Qed.

(** Every name a module binds is bound once the module has run. *)
Lemma exec_module_bound m ns ns' k :
  exec_module m ns = Ok ns' -> In k (map binds m) -> is_Some (ns' !! k).
Proof.
  revert ns. induction m as [| s m IH]; intros ns; simpl; [tauto |].
  destruct (exec_stmt ns s) as [ns1 |] eqn:Hs; simpl; [| discriminate].
  intros Hm Hk.
  destruct (in_dec string_dec k (map binds m)) as [Hin | Hout].
  - exact (IH _ Hm Hin).
  - destruct Hk as [<- | Hin]; [| tauto].
    rewrite (exec_module_other _ _ _ _ Hm Hout).
    apply exec_stmt_binds in Hs as [v ->].
    rewrite lookup_insert_eq. eauto.
Qed.

(** Two runs of a module that reads no name agree on every name the
    module binds, whatever namespaces they start from. *)
Lemma exec_module_deterministic m ns1 ns2 r1 r2 k :
  module_reads m = [] ->
  exec_module m ns1 = Ok r1 -> exec_module m ns2 = Ok r2 ->
  In k (map binds m) -> r1 !! k = r2 !! k.
Proof.
  intros Hreads H1 H2 Hk.
  rewrite <- (left_id_L ∅ (∪) ns1), exec_module_frame in H1 by exact Hreads.
  rewrite <- (left_id_L ∅ (∪) ns2), exec_module_frame in H2 by exact Hreads.
  destruct (exec_module m ∅) as [r |] eqn:Hr; simpl in H1, H2;
    [| discriminate].
  injection H1 as <-. injection H2 as <-.
  destruct (exec_module_bound _ _ _ _ Hr Hk) as [v Hv].
  rewrite (lookup_union_Some_l _ _ _ _ Hv).
  rewrite (lookup_union_Some_l _ _ _ _ Hv). reflexivity.
Qed.

Lemma fields_binds m k : In k (fields m) -> In k (map binds m).
Proof.
  unfold fields. induction m as [| [feature | target rhs] m IH]; simpl;
    tauto.
Qed.

End Execution.

(** * The loaded settings *)

Section Settings.

Lemma settings_loaded : exec_module pelicanconf ∅ = Ok settings.
Proof. vm_compute. reflexivity. Qed.

Lemma pelicanconf_reads_nothing : module_reads pelicanconf = [].
Proof. reflexivity. Qed.

Lemma pelicanconf_binds_once : NoDup (map binds pelicanconf).
Proof. apply (bool_decide_unpack _). vm_compute. reflexivity. Qed.

(** Loading the module into any namespace succeeds and lays the settings
    over what the namespace held. *)
Lemma pelicanconf_loads (ns0 : namespace) :
  exec_module pelicanconf ns0 = Ok (settings ∪ ns0).
Proof.
  rewrite <- (left_id_L ∅ (∪) ns0) at 1.
  rewrite exec_module_frame by apply pelicanconf_reads_nothing.
  rewrite settings_loaded. reflexivity.
Qed.

Lemma loaded_field (ns0 : namespace) k v :
  settings !! k = Some v -> (settings ∪ ns0) !! k = Some v.
Proof. apply lookup_union_Some_l. Qed.

Lemma loaded_other (ns0 : namespace) k :
  settings !! k = None -> (settings ∪ ns0) !! k = ns0 !! k.
Proof. apply lookup_union_r. Qed.

Lemma is_link_entry_spec (v : value) :
  is_link_entry v = true <->
  exists label url, v = VTuple [VStr label; VStr url] /\
                    label <> "" /\ url <> "".
Proof.
  split.
  - destruct v as [| | | | [| [| | | label | | |] [| [| | | url | | |] []]] | |];
      simpl; try discriminate.
    intros [Hl Hu]%andb_prop. exists label, url.
    apply negb_true_iff in Hl, Hu. apply String.eqb_neq in Hl, Hu. auto.
  - intros (label & url & -> & Hl & Hu). simpl.
    apply String.eqb_neq in Hl, Hu. rewrite Hl, Hu. reflexivity.
Qed.

End Settings.

(** Reads a field of a loaded namespace off the settings. *)
Ltac settings_field := apply loaded_field; reflexivity.

(** * The evaluator on small inputs *)

Section Examples.

(** The [é] of the author's name is the two bytes 195, 169. *)
Example author_utf8 :
  settings !! "AUTHOR" =
    Some (VStr ("Jos" ++ String (ascii_of_nat 195)
                           (String (ascii_of_nat 169) " San Gil"))%string).
Proof. reflexivity. Qed.

Example settings_size : size settings = 20%nat.
Proof. reflexivity. Qed.

Example future_import_binds_feature :
  settings !! "unicode_literals" = Some (VFeature "unicode_literals").
Proof. reflexivity. Qed.

Example unknown_future_feature :
  exec_module [FutureImport "braces"] ∅ =
    Raise (SyntaxError "future feature is not defined").
Proof. reflexivity. Qed.

(** [{1: 'a', True: 'b'}] is [{1: 'b'}]. *)
Example dict_true_is_one :
  eval ∅ (Dict [(Constant (CInt 1), str "a"); (Constant (CBool true), str "b")])
  = Ok (VDict [(VInt 1, VStr "b")]).
Proof. reflexivity. Qed.

Example dict_unhashable_key :
  eval ∅ (Dict [(Tuple [Dict []], str "a")])
  = Raise (TypeError "unhashable type").
Proof. reflexivity. Qed.

Example unbound_name :
  eval ∅ (Name "RELATIVE_URLS") = Raise (NameError "RELATIVE_URLS").
Proof. reflexivity. Qed.

(** A module that reads a name is not a function of its text alone: the
    value it binds follows the namespace it is loaded into. *)
Example reading_module_follows_namespace :
  let m := [Assign "FEED_DOMAIN" (Name "SITEURL")] in
  (r ← exec_module m {["SITEURL" := VStr "http://a/"]}; Ok (r !! "FEED_DOMAIN"))
    = Ok (Some (VStr "http://a/")) /\
  (r ← exec_module m {["SITEURL" := VStr "http://b/"]}; Ok (r !! "FEED_DOMAIN"))
    = Ok (Some (VStr "http://b/")) /\
  exec_module m ∅ = Raise (NameError "SITEURL").
Proof. repeat split. Qed.

(** A later assignment to a bound name replaces its value. *)
Example rebinding_replaces :
  (r ← exec_module [Assign "THEME" (str "a"); Assign "THEME" (str "b")] ∅;
   Ok (r !! "THEME")) = Ok (Some (VStr "b")).
Proof. reflexivity. Qed.

Example contains_feed :
  map is_feed_field ["FEED_ALL_ATOM"; "AUTHOR_FEED_RSS"; "AUTHOR"; "FEE"]
  = [true; true; false; false].
Proof. reflexivity. Qed.

(** The values of all fields but the metadata dict are of immutable
    types. *)
Lemma field_values_immutable_but_metadata :
  List.filter (fun k => match settings !! k with
                        | Some v => negb (immutable v)
                        | None => true
                        end) (fields pelicanconf)
  = ["DEFAUT_METADATA"].
Proof. reflexivity. Qed.

End Examples.

(** * The specification's claims *)

Section Claims.

(** C1: the module sets the default metadata under the key
    [DEFAUT_METADATA] and sets nothing under [DEFAULT_METADATA]: loaded
    into a namespace that does not hold [DEFAULT_METADATA], it leaves a
    lookup of that exact key without a value, while [DEFAUT_METADATA]
    holds the dict. *)
Theorem default_metadata_key_misspelled (ns0 : namespace) :
  ns0 !! "DEFAULT_METADATA" = None ->
  In "DEFAUT_METADATA" (fields pelicanconf) /\
  ~ In "DEFAULT_METADATA" (fields pelicanconf) /\
  exists ns,
    exec_module pelicanconf ns0 = Ok ns /\
    ns !! "DEFAUT_METADATA" = Some (VDict [(VStr "status", VStr "draft")]) /\
    ns !! "DEFAULT_METADATA" = None.
Proof.
  intros Hfresh. split; [| split].
  - simpl. tauto.
  - simpl. intros H. repeat (destruct H as [H | H]; [discriminate H |]).
    exact H.
  - exists (settings ∪ ns0). split; [apply pelicanconf_loads |]. split.
    + settings_field.
    + rewrite loaded_other by reflexivity. exact Hfresh.
Qed.

(** C1 at the empty namespace, where [DEFAULT_METADATA] is unbound. *)
Lemma default_metadata_key_misspelled_witness :
  (∅ : namespace) !! "DEFAULT_METADATA" = None /\
  (In "DEFAUT_METADATA" (fields pelicanconf) /\
   ~ In "DEFAULT_METADATA" (fields pelicanconf) /\
   exists ns,
     exec_module pelicanconf ∅ = Ok ns /\
     ns !! "DEFAUT_METADATA" = Some (VDict [(VStr "status", VStr "draft")]) /\
     ns !! "DEFAULT_METADATA" = None).
Proof.
  split; [reflexivity |].
  apply (default_metadata_key_misspelled ∅). reflexivity.
Defined.

(** C2, as the specification counts: four feed settings, each [None] or a
    string.  The module has five. *)
Lemma feed_toggles_are_not_four :
  ~ (length (feed_fields pelicanconf) = 4%nat /\
     exists ns,
       exec_module pelicanconf ∅ = Ok ns /\
       Forall (fun k => exists v, ns !! k = Some v /\ is_feed_setting v = true)
              (feed_fields pelicanconf)).
Proof. intros [Hfour _]. vm_compute in Hfour. discriminate Hfour. Qed.

(** C2, amended: the module has exactly five feed settings, and each of
    them is bound to [None] or to a string. *)
Theorem feed_toggles_are_five (ns0 : namespace) :
  length (feed_fields pelicanconf) = 5%nat /\
  exists ns,
    exec_module pelicanconf ns0 = Ok ns /\
    Forall (fun k => exists v, ns !! k = Some v /\ is_feed_setting v = true)
           (feed_fields pelicanconf).
Proof.
  split; [reflexivity |].
  exists (settings ∪ ns0). split; [apply pelicanconf_loads |].
  repeat constructor; exists VNone; (split; [| reflexivity]);
    settings_field.
Qed.

(** C3: the feed fields are [FEED_ALL_ATOM], [CATEGORY_FEED_ATOM],
    [TRANSLATION_FEED_ATOM], [AUTHOR_FEED_ATOM] and [AUTHOR_FEED_RSS]; each
    is [None] or a string, and in this module each is [None]. *)
Theorem feed_fields_are_none (ns0 : namespace) :
  feed_fields pelicanconf =
    [ "FEED_ALL_ATOM"; "CATEGORY_FEED_ATOM"; "TRANSLATION_FEED_ATOM";
      "AUTHOR_FEED_ATOM"; "AUTHOR_FEED_RSS" ] /\
  exists ns,
    exec_module pelicanconf ns0 = Ok ns /\
    Forall (fun k => exists v, ns !! k = Some v /\ is_feed_setting v = true)
           (feed_fields pelicanconf) /\
    Forall (fun k => ns !! k = Some VNone) (feed_fields pelicanconf).
Proof.
  split; [reflexivity |].
  exists (settings ∪ ns0). split; [apply pelicanconf_loads |]. split.
  - repeat constructor; exists VNone; (split; [| reflexivity]);
      settings_field.
  - repeat constructor; settings_field.
Qed.

(** C4: [LINKS] and [SOCIAL] are tuples, and every entry of either is a
    tuple of exactly two strings, a label and a URL, both non-empty. *)
Theorem link_entries_are_pairs (ns0 : namespace) :
  exists ns links social,
    exec_module pelicanconf ns0 = Ok ns /\
    ns !! "LINKS" = Some (VTuple links) /\
    ns !! "SOCIAL" = Some (VTuple social) /\
    Forall (fun entry => exists label url,
                entry = VTuple [VStr label; VStr url] /\
                label <> "" /\ url <> "")
           (links ++ social).
Proof.
  exists (settings ∪ ns0).
  eexists. eexists. split; [apply pelicanconf_loads |].
  split; [settings_field |].
  split; [settings_field |].
  apply List.Forall_forall. intros entry Hentry. apply is_link_entry_spec.
  revert entry Hentry. apply forallb_forall. reflexivity.
Qed.

(** C5: [DEFAULT_PAGINATION] is an integer, it is positive, and it is 10. *)
Theorem default_pagination_is_ten (ns0 : namespace) :
  exists ns n,
    exec_module pelicanconf ns0 = Ok ns /\
    ns !! "DEFAULT_PAGINATION" = Some (VInt n) /\
    0 < n /\ n = 10.
Proof.
  exists (settings ∪ ns0), 10. split; [apply pelicanconf_loads |].
  split; [settings_field |]. lia.
Qed.

(** C6: the default metadata is a dict with the one key ["status"]; its
    value is ["draft"], a member of every set of content states that
    holds ["draft"] and ["published"]. *)
Theorem default_metadata_status (states : gset string) (ns0 : namespace) :
  {["draft"; "published"]} ⊆ states ->
  exists ns d status,
    exec_module pelicanconf ns0 = Ok ns /\
    ns !! "DEFAUT_METADATA" = Some (VDict d) /\
    dict_keys d = [VStr "status"] /\
    dict_get d (VStr "status") = Some (VStr status) /\
    status ∈ states /\ status = "draft".
Proof.
  intros Hstates.
  exists (settings ∪ ns0), [(VStr "status", VStr "draft")], "draft".
  split; [apply pelicanconf_loads |].
  split; [settings_field |].
  split; [reflexivity |]. split; [reflexivity |].
  split; [| reflexivity]. apply Hstates. set_solver.
Qed.

(** C6 with the two content states the specification names, loading from
    the empty namespace. *)
Lemma default_metadata_status_witness :
  ({["draft"; "published"]} : gset string) ⊆ {["draft"; "published"]} /\
  exists ns d status,
    exec_module pelicanconf ∅ = Ok ns /\
    ns !! "DEFAUT_METADATA" = Some (VDict d) /\
    dict_keys d = [VStr "status"] /\
    dict_get d (VStr "status") = Some (VStr status) /\
    status ∈ ({["draft"; "published"]} : gset string) /\ status = "draft".
Proof.
  split; [reflexivity |].
  apply (default_metadata_status {["draft"; "published"]} ∅). reflexivity.
Defined.

(** Every field is assigned a literal, whose value no namespace changes;
    no name is bound twice; and from its assignment to the end of the
    load the field holds that one value. *)
Lemma assigned_literal_is_fixed (k : string) (e : expr) :
  In (Assign k e) pelicanconf ->
  literal e /\
  NoDup (map binds pelicanconf) /\
  exists v,
    (forall ns, eval ns e = Ok v) /\
    forall (ns0 : namespace) pre post rest,
      pelicanconf = pre ++ Assign k e :: post ++ rest ->
      exists ns,
        exec_module (pre ++ Assign k e :: post) ns0 = Ok ns /\
        ns !! k = Some v.
Proof.
  intros Hin.
  destruct (in_split _ _ Hin) as (pre0 & post0 & Hsplit).
  assert (Hlit : literal e).
  { pose proof pelicanconf_reads_nothing as Hreads. rewrite Hsplit in Hreads.
    apply module_reads_app in Hreads as [_ Hreads].
    apply module_reads_cons in Hreads as [Hreads _]. exact Hreads. }
  split; [exact Hlit |]. split; [apply pelicanconf_binds_once |].
  destruct (eval ∅ e) as [v | err] eqn:He.
  - exists v. split.
    { intros ns. rewrite <- He. apply eval_literal, Hlit. }
    intros ns0 pre post rest Hparts.
    assert (Hwhole : pelicanconf = (pre ++ Assign k e :: post) ++ rest).
    { rewrite Hparts, <- app_assoc. reflexivity. }
    pose proof (pelicanconf_loads ns0) as Hload.
    pose proof pelicanconf_reads_nothing as Hreads.
    pose proof pelicanconf_binds_once as Hnodup.
    rewrite Hwhole in Hload, Hreads, Hnodup.
    rewrite exec_module_app in Hload.
    destruct (exec_module (pre ++ Assign k e :: post) ns0) as [ns |] eqn:Hns;
      simpl in Hload; [| discriminate].
    exists ns. split; [reflexivity |].
    apply module_reads_app in Hreads as [Hreads _].
    rewrite map_app in Hnodup. apply NoDup_app in Hnodup as (Hnodup & _ & _).
    destruct (exec_assigned_once _ _ _ _ _ _ Hreads Hnodup Hns)
      as (v' & Hv' & Hk).
    rewrite Hk. specialize (Hv' ∅). congruence.
  - exfalso. pose proof settings_loaded as Hload.
    rewrite Hsplit, exec_module_app in Hload. simpl in Hload.
    destruct (exec_module pre0 ∅) as [ns1 |]; simpl in Hload; [| discriminate].
    rewrite (eval_literal e ns1 ∅ Hlit), He in Hload. discriminate.
Qed.

(** C7, as stated: every field holds, once the file is loaded, an object
    that cannot change.  [DEFAUT_METADATA] holds a dict. *)
Lemma fields_are_not_all_immutable :
  ~ (forall k v, In k (fields pelicanconf) ->
                 settings !! k = Some v -> immutable v = true).
Proof.
  intros Hall.
  assert (Hdict : immutable (VDict [(VStr "status", VStr "draft")]) = true).
  { apply (Hall "DEFAUT_METADATA"); [| reflexivity].
    unfold pelicanconf. simpl. do 18 right. left. reflexivity. }
  discriminate Hdict.
Qed.

(** C7, amended: every field is assigned a literal, whose value no
    namespace changes, so it is computed from no other field; no statement
    binds the field again, and from its assignment to the end of the load
    it holds that one value; the value is of an immutable type for every
    field but [DEFAUT_METADATA], whose value is a dict. *)
Theorem fields_are_literal_and_not_rebound (k : string) (e : expr) :
  In (Assign k e) pelicanconf ->
  literal e /\
  NoDup (map binds pelicanconf) /\
  exists v,
    (forall ns, eval ns e = Ok v) /\
    immutable v = negb (String.eqb k "DEFAUT_METADATA") /\
    forall (ns0 : namespace) pre post rest,
      pelicanconf = pre ++ Assign k e :: post ++ rest ->
      exists ns,
        exec_module (pre ++ Assign k e :: post) ns0 = Ok ns /\
        ns !! k = Some v.
Proof.
  intros Hin.
  destruct (assigned_literal_is_fixed k e Hin)
    as (Hlit & Hnodup & v & Hv & Hrun).
  split; [exact Hlit |]. split; [exact Hnodup |].
  exists v. split; [exact Hv |]. split; [| exact Hrun].
  specialize (Hv ∅). clear Hlit Hnodup Hrun.
  unfold pelicanconf in Hin. simpl in Hin.
  repeat (destruct Hin as [Heq | Hin];
          [ try discriminate Heq; injection Heq as Hk He; subst k e;
            vm_compute in Hv; injection Hv as Hv; subst v; reflexivity |]).
  destruct Hin.
Qed.

(** C7 at the last field of the module, the metadata dict. *)
Lemma fields_are_literal_and_not_rebound_witness :
  In (Assign "DEFAUT_METADATA" DEFAUT_METADATA) pelicanconf /\
  (literal DEFAUT_METADATA /\
   NoDup (map binds pelicanconf) /\
   exists v,
     (forall ns, eval ns DEFAUT_METADATA = Ok v) /\
     immutable v = negb (String.eqb "DEFAUT_METADATA" "DEFAUT_METADATA") /\
     forall (ns0 : namespace) pre post rest,
       pelicanconf =
         pre ++ Assign "DEFAUT_METADATA" DEFAUT_METADATA :: post ++ rest ->
       exists ns,
         exec_module
           (pre ++ Assign "DEFAUT_METADATA" DEFAUT_METADATA :: post) ns0
         = Ok ns /\
         ns !! "DEFAUT_METADATA" = Some v).
Proof.
  assert (Hin : In (Assign "DEFAUT_METADATA" DEFAUT_METADATA) pelicanconf).
  { unfold pelicanconf. do 19 right. left. reflexivity. }
  split; [exact Hin |].
  exact (fields_are_literal_and_not_rebound
           "DEFAUT_METADATA" DEFAUT_METADATA Hin).
Defined.

(** C9: [SITEURL] is the empty string: a link made by putting it in front
    of a path is the path alone. *)
Theorem siteurl_is_empty (ns0 : namespace) :
  exists ns url,
    exec_module pelicanconf ns0 = Ok ns /\
    ns !! "SITEURL" = Some (VStr url) /\
    url = "" /\
    String.length url = 0%nat /\
    forall path, (url ++ path)%string = path.
Proof.
  exists (settings ∪ ns0), "". split; [apply pelicanconf_loads |].
  split; [settings_field |]. auto.
Qed.

(** C10: the module reads no name of the namespace it is loaded into, and
    two loads, from any two namespaces, both succeed and bind every field
    to the same value. *)
Theorem load_is_deterministic (ns1 ns2 : namespace) :
  module_reads pelicanconf = [] /\
  exists r1 r2,
    exec_module pelicanconf ns1 = Ok r1 /\
    exec_module pelicanconf ns2 = Ok r2 /\
    Forall (fun k => is_Some (r1 !! k) /\ r1 !! k = r2 !! k)
           (fields pelicanconf).
Proof.
  split; [apply pelicanconf_reads_nothing |].
  exists (settings ∪ ns1), (settings ∪ ns2).
  split; [apply pelicanconf_loads |]. split; [apply pelicanconf_loads |].
  apply List.Forall_forall. intros k Hk. apply fields_binds in Hk. split.
  - exact (exec_module_bound _ _ _ _ (pelicanconf_loads ns1) Hk).
  - exact (exec_module_deterministic _ _ _ _ _ _ pelicanconf_reads_nothing
             (pelicanconf_loads ns1) (pelicanconf_loads ns2) Hk).
Qed.

End Claims.

(** * Modules of literals: what a load amounts to *)

Section Bindings.

Implicit Types (m : module) (s : stmt) (k : string).
Implicit Types (bs : list (string * value)).

Lemma bindings_cons s m :
  bindings (s :: m) =
    (v ← stmt_value s; bs ← bindings m; Ok ((binds s, v) :: bs)).
Proof.
  unfold bindings. simpl. destruct (stmt_value s) as [v |]; reflexivity.
Qed.

Lemma bindings_keys m bs : bindings m = Ok bs -> bs.*1 = map binds m.
Proof.
  revert bs. induction m as [| s m IH]; intros bs.
  - intros [= <-]. reflexivity.
  - rewrite bindings_cons.
    destruct (stmt_value s) as [v |]; simpl; [| discriminate].
    destruct (bindings m) as [bs' |]; simpl; [| discriminate].
    intros [= <-]. simpl. f_equal. apply IH. reflexivity.
Qed.

(** A statement that reads no name binds what it binds from nothing. *)
Lemma exec_stmt_closed s (ns : namespace) :
  stmt_reads s = [] ->
  exec_stmt ns s = (v ← stmt_value s; Ok (<[binds s := v]> ns)).
Proof.
  destruct s as [feature | target rhs];
    cbn [exec_stmt stmt_value binds stmt_reads].
  - intros _. destruct (existsb (String.eqb feature) future_features);
      reflexivity.
  - intros Hreads. rewrite (eval_literal rhs ns ∅ Hreads). reflexivity.
Qed.

(** Loading a module that reads no name and binds no name twice lays its
    bindings over the namespace. *)
Lemma exec_module_bindings m (ns0 : namespace) :
  module_reads m = [] -> NoDup (map binds m) ->
  exec_module m ns0 = (bs ← bindings m; Ok (list_to_map bs ∪ ns0)).
Proof.
  revert ns0. induction m as [| s m IH]; intros ns0 Hreads Hnodup.
  - simpl. rewrite (left_id_L ∅ (∪)). reflexivity.
  - apply module_reads_cons in Hreads as [Hs Hm].
    simpl in Hnodup. apply NoDup_cons in Hnodup as [Hfresh Hnodup].
    cbn [exec_module]. rewrite (exec_stmt_closed s ns0 Hs), bindings_cons.
    destruct (stmt_value s) as [v |]; simpl; [| reflexivity].
    rewrite (IH _ Hm Hnodup).
    destruct (bindings m) as [bs |] eqn:Hbs; simpl; [| reflexivity].
    f_equal. rewrite <- insert_union_l. symmetry. apply insert_union_r.
    apply not_elem_of_list_to_map_1.
    rewrite (bindings_keys _ _ Hbs). exact Hfresh.
Qed.

Lemma bindings_Permutation m m' bs :
  m ≡ₚ m' -> bindings m = Ok bs ->
  exists bs', bindings m' = Ok bs' /\ bs ≡ₚ bs'.
Proof.
  intros Hperm. revert bs.
  induction Hperm as [| s m m' _ IH | s1 s2 m | m1 m2 m3 _ IH1 _ IH2];
    intros bs.
  - intros [= <-]. exists []. split; reflexivity.
  - rewrite !bindings_cons.
    destruct (stmt_value s) as [v |]; simpl; [| discriminate].
    destruct (bindings m) as [bs0 |]; simpl; [| discriminate].
    intros [= <-]. destruct (IH bs0 eq_refl) as (bs' & -> & Hbs').
    simpl. eexists. split; [reflexivity |]. constructor. exact Hbs'.
  - rewrite !bindings_cons.
    destruct (stmt_value s2) as [v2 |]; simpl; [| discriminate].
    destruct (stmt_value s1) as [v1 |]; simpl; [| discriminate].
    destruct (bindings m) as [bs0 |]; simpl; [| discriminate].
    intros [= <-]. eexists. split; [reflexivity |]. constructor.
  - intros H1. destruct (IH1 _ H1) as (bs2 & H2 & Hp12).
    destruct (IH2 _ H2) as (bs3 & H3 & Hp23).
    exists bs3. split; [exact H3 |]. etransitivity; eassumption.
Qed.

Lemma bindings_sublist m m' bs :
  sublist m' m -> bindings m = Ok bs ->
  exists bs', bindings m' = Ok bs' /\ sublist bs' bs.
Proof.
  intros Hsub. revert bs.
  induction Hsub as [| s m' m _ IH | s m' m _ IH]; intros bs.
  - intros [= <-]. exists []. split; [reflexivity | constructor].
  - rewrite !bindings_cons.
    destruct (stmt_value s) as [v |]; simpl; [| discriminate].
    destruct (bindings m) as [bs0 |]; simpl; [| discriminate].
    intros [= <-]. destruct (IH bs0 eq_refl) as (bs' & -> & Hbs').
    simpl. eexists. split; [reflexivity |]. constructor. exact Hbs'.
  - rewrite bindings_cons.
    destruct (stmt_value s) as [v |]; simpl; [| discriminate].
    destruct (bindings m) as [bs0 |]; simpl; [| discriminate].
    intros [= <-]. destruct (IH bs0 eq_refl) as (bs' & Hm' & Hbs').
    exists bs'. split; [exact Hm' |]. constructor. exact Hbs'.
Qed.

Lemma module_reads_Permutation m m' :
  m ≡ₚ m' -> module_reads m = [] -> module_reads m' = [].
Proof.
  intros Hperm Hreads. apply Permutation_nil_r. rewrite <- Hreads.
  unfold module_reads. apply Permutation_flat_map. symmetry. exact Hperm.
Qed.

Lemma module_reads_sublist m m' :
  sublist m' m -> module_reads m = [] -> module_reads m' = [].
Proof.
  induction 1 as [| s m' m _ IH | s m' m _ IH]; intros Hreads.
  - reflexivity.
  - apply module_reads_cons in Hreads as [Hs Hm].
    unfold module_reads in *. simpl. rewrite Hs, (IH Hm). reflexivity.
  - apply module_reads_cons in Hreads as [_ Hm]. exact (IH Hm).
Qed.

End Bindings.

(** * The module as a whole *)

Section WholeModule.

Implicit Types (m : module) (k : string).

(** The names bound after a module has run are those bound before and
    those its statements bind. *)
Lemma exec_module_dom m (ns ns' : namespace) :
  exec_module m ns = Ok ns' ->
  dom ns' = list_to_set (map binds m) ∪ dom ns.
Proof.
  revert ns. induction m as [| s m IH]; intros ns; simpl.
  - intros [= <-]. rewrite (left_id_L ∅ (∪)). reflexivity.
  - destruct (exec_stmt ns s) as [ns1 |] eqn:Hs; simpl; [| discriminate].
    intros Hm. rewrite (IH _ Hm).
    apply exec_stmt_binds in Hs as [v ->].
    rewrite dom_insert_L, !(assoc_L (∪)).
    rewrite (comm_L (∪) {[binds s]}). reflexivity.
Qed.

Lemma pelicanconf_bindings :
  exists bs, bindings pelicanconf = Ok bs /\ settings = list_to_map bs.
Proof.
  pose proof settings_loaded as Hload.
  rewrite (exec_module_bindings _ _ pelicanconf_reads_nothing
             pelicanconf_binds_once) in Hload.
  destruct (bindings pelicanconf) as [bs |]; simpl in Hload; [| discriminate].
  exists bs. split; [reflexivity |].
  injection Hload as <-. rewrite (right_id_L ∅ (∪)). reflexivity.
Qed.

(** X1: a load binds the module's twenty names and touches no other: every
    other name is bound afterwards exactly when it was before, and to the
    same object.  [RELATIVE_URLS], whose assignment is commented out, is
    one of them. *)
Theorem load_touches_only_its_names (ns0 : namespace) :
  exists ns,
    exec_module pelicanconf ns0 = Ok ns /\
    dom ns = list_to_set (map binds pelicanconf) ∪ dom ns0 /\
    length (map binds pelicanconf) = 20%nat /\
    (forall k, ~ In k (map binds pelicanconf) -> ns !! k = ns0 !! k) /\
    ns !! "RELATIVE_URLS" = ns0 !! "RELATIVE_URLS".
Proof.
  exists (settings ∪ ns0). pose proof (pelicanconf_loads ns0) as Hload.
  split; [exact Hload |]. split; [exact (exec_module_dom _ _ _ Hload) |].
  split; [reflexivity |]. split.
  - intros k Hk. exact (exec_module_other _ _ _ _ Hload Hk).
  - apply loaded_other. reflexivity.
Qed.

(** The module passes the compiler's check, so loading it is executing
    its body; its text written twice in a row does not, the second import
    standing after the assignments. *)
Lemma pelicanconf_compiles (ns0 : namespace) :
  load pelicanconf ns0 = exec_module pelicanconf ns0 /\
  load (pelicanconf ++ pelicanconf) ns0 =
    Raise (SyntaxError
      "from __future__ imports must occur at the beginning of the file").
Proof. split; reflexivity. Qed.

(** X2: loading the module again into the namespace a load produced
    succeeds and changes nothing. *)
Theorem reload_is_idempotent (ns0 : namespace) :
  exists ns,
    load pelicanconf ns0 = Ok ns /\
    load pelicanconf ns = Ok ns /\
    exec_module pelicanconf ns0 = Ok ns /\
    exec_module pelicanconf ns = Ok ns.
Proof.
  exists (settings ∪ ns0).
  assert (Hagain : exec_module pelicanconf (settings ∪ ns0)
                   = Ok (settings ∪ ns0)).
  { rewrite pelicanconf_loads, (assoc_L (∪)), (idemp_L (∪)). reflexivity. }
  pose proof (pelicanconf_loads ns0) as Hload.
  destruct (pelicanconf_compiles ns0) as [Hc0 _].
  destruct (pelicanconf_compiles (settings ∪ ns0)) as [Hc1 _].
  split; [rewrite Hc0; exact Hload |].
  split; [rewrite Hc1; exact Hagain |].
  split; [exact Hload | exact Hagain].
Qed.

(** X3: with the [__future__] import kept on the first line, the
    assignments can stand in any order: the load gives the same
    namespace. *)
Theorem assignment_order_is_irrelevant (body : module) (ns0 : namespace) :
  tail pelicanconf ≡ₚ body ->
  exec_module (FutureImport "unicode_literals" :: body) ns0
  = exec_module pelicanconf ns0.
Proof.
  intros Hbody.
  assert (Hperm : pelicanconf ≡ₚ FutureImport "unicode_literals" :: body).
  { unfold pelicanconf in *. simpl in Hbody. constructor. exact Hbody. }
  destruct pelicanconf_bindings as (bs & Hbs & _).
  destruct (bindings_Permutation _ _ _ Hperm Hbs) as (bs' & Hbs' & Hpbs).
  rewrite (exec_module_bindings pelicanconf ns0 pelicanconf_reads_nothing
             pelicanconf_binds_once), Hbs.
  rewrite exec_module_bindings, Hbs'.
  - simpl. f_equal. f_equal. symmetry. apply list_to_map_proper; [| exact Hpbs].
    rewrite (bindings_keys _ _ Hbs). apply pelicanconf_binds_once.
  - exact (module_reads_Permutation _ _ Hperm pelicanconf_reads_nothing).
  - rewrite <- Hperm. apply pelicanconf_binds_once.
Qed.

(** X3 at the assignments in reverse order. *)
Lemma assignment_order_is_irrelevant_witness :
  tail pelicanconf ≡ₚ rev (tail pelicanconf) /\
  exec_module (FutureImport "unicode_literals" :: rev (tail pelicanconf)) ∅
  = exec_module pelicanconf ∅.
Proof.
  assert (Hrev : tail pelicanconf ≡ₚ rev (tail pelicanconf))
    by apply Permutation_rev.
  split; [exact Hrev |].
  exact (assignment_order_is_irrelevant (rev (tail pelicanconf)) ∅ Hrev).
Defined.

Lemma without_feeds_sublist m : sublist (without_feeds m) m.
Proof.
  unfold without_feeds. induction m as [| s m IH]; simpl; [constructor |].
  destruct (negb (is_feed_field (binds s))); constructor; exact IH.
Qed.

(** X4: with any of its statements taken out whole (the import, or an
    assignment with all the lines of its right-hand side), the module
    still loads; the names it binds get the objects the whole module gives
    them, and every other name is left as it was. *)
Theorem removing_statements_keeps_the_rest (m : module) (ns0 : namespace) :
  sublist m pelicanconf ->
  exists ns' ns,
    exec_module m ns0 = Ok ns' /\
    exec_module pelicanconf ns0 = Ok ns /\
    (forall k, In k (map binds m) -> ns' !! k = ns !! k) /\
    (forall k, ~ In k (map binds m) -> ns' !! k = ns0 !! k).
Proof.
  intros Hsub.
  destruct pelicanconf_bindings as (bs & Hbs & Hsettings).
  destruct (bindings_sublist _ _ _ Hsub Hbs) as (bs' & Hbs' & Hsubbs).
  assert (Hnodup : NoDup (map binds m)).
  { assert (Hnames : sublist (map binds m) (map binds pelicanconf))
      by apply (fmap_sublist binds), Hsub.
    exact (sublist_NoDup _ _ pelicanconf_binds_once Hnames). }
  assert (Hload : exec_module m ns0 = Ok (list_to_map bs' ∪ ns0)).
  { rewrite exec_module_bindings, Hbs'; [reflexivity | | exact Hnodup].
    exact (module_reads_sublist _ _ Hsub pelicanconf_reads_nothing). }
  exists (list_to_map bs' ∪ ns0), (settings ∪ ns0).
  split; [exact Hload |]. split; [apply pelicanconf_loads |]. split.
  - intros k Hk. rewrite <- (bindings_keys _ _ Hbs') in Hk.
    apply list_elem_of_In, list_elem_of_fmap in Hk as ([k' v] & -> & Hkv).
    simpl. rewrite (lookup_union_Some_l _ _ _ v).
    + symmetry. apply loaded_field. rewrite Hsettings.
      apply elem_of_list_to_map_1.
      * rewrite (bindings_keys _ _ Hbs). apply pelicanconf_binds_once.
      * exact (elem_of_sublist _ _ _ Hkv Hsubbs).
    + apply elem_of_list_to_map_1; [| exact Hkv].
      rewrite (bindings_keys _ _ Hbs'). exact Hnodup.
  - intros k Hk. exact (exec_module_other _ _ _ _ Hload Hk).
Qed.

(** X4 at the module without its five feed assignments. *)
Lemma removing_statements_keeps_the_rest_witness :
  sublist (without_feeds pelicanconf) pelicanconf /\
  exists ns' ns,
    exec_module (without_feeds pelicanconf) ∅ = Ok ns' /\
    exec_module pelicanconf ∅ = Ok ns /\
    (forall k, In k (map binds (without_feeds pelicanconf)) ->
               ns' !! k = ns !! k) /\
    (forall k, ~ In k (map binds (without_feeds pelicanconf)) ->
               ns' !! k = (∅ : namespace) !! k).
Proof.
  assert (Hsub : sublist (without_feeds pelicanconf) pelicanconf)
    by apply without_feeds_sublist.
  split; [exact Hsub |].
  exact (removing_statements_keeps_the_rest
           (without_feeds pelicanconf) ∅ Hsub).
Defined.

End WholeModule.

(** * The settings the claims do not name *)

Section OtherSettings.

Implicit Types (k : string).

(** What a load leaves under a name of the module is what the settings
    hold under it. *)
Lemma loaded_bound (ns0 : namespace) k :
  In k (map binds pelicanconf) -> (settings ∪ ns0) !! k = settings !! k.
Proof.
  intros Hk.
  destruct (exec_module_bound _ _ _ _ settings_loaded Hk) as [v Hv].
  rewrite Hv. apply loaded_field, Hv.
Qed.

(** X5: nine fields are strings, [AUTHOR], [SITENAME], [SITESUBTITLE],
    [SITEURL], [PATH], [TIMEZONE], [DEFAULT_LANG], [GOOGLE_ANALYTICS] and
    [THEME]; [SITEURL] is the only empty one; and
    [DISPLAY_PAGES_ON_MENU] is the boolean [False]. *)
Theorem string_settings_are_filled (ns0 : namespace) :
  exists ns,
    exec_module pelicanconf ns0 = Ok ns /\
    List.filter (fun k => from_option is_str false (ns !! k))
                (fields pelicanconf)
    = [ "AUTHOR"; "SITENAME"; "SITESUBTITLE"; "SITEURL"; "PATH"; "TIMEZONE";
        "DEFAULT_LANG"; "GOOGLE_ANALYTICS"; "THEME" ] /\
    List.filter (fun k => from_option is_empty_str false (ns !! k))
                (fields pelicanconf)
    = [ "SITEURL" ] /\
    ns !! "DISPLAY_PAGES_ON_MENU" = Some (VBool false).
Proof.
  exists (settings ∪ ns0). split; [apply pelicanconf_loads |].
  assert (Hsame : forall (f : value -> bool),
             List.filter (fun k => from_option f false ((settings ∪ ns0) !! k))
                         (fields pelicanconf)
             = List.filter (fun k => from_option f false (settings !! k))
                           (fields pelicanconf)).
  { intros f. apply filter_ext_in. intros k Hk.
    rewrite (loaded_bound ns0 k (fields_binds _ _ Hk)). reflexivity. }
  rewrite !Hsame. split; [reflexivity |]. split; [reflexivity |].
  settings_field.
Qed.

(** X6: the upper-case names of the loaded module are exactly its
    nineteen fields; the name the [__future__] import binds is not among
    them. *)
Theorem upper_case_names_are_the_fields (k : string) :
  (isupper k = true /\ is_Some (settings !! k)) <-> In k (fields pelicanconf).
Proof.
  split.
  - intros [Hupper Hbound].
    apply elem_of_dom in Hbound.
    rewrite (exec_module_dom _ _ _ settings_loaded) in Hbound.
    rewrite dom_empty_L, (right_id_L ∅ (∪)) in Hbound.
    apply elem_of_list_to_set, list_elem_of_In in Hbound.
    simpl in Hbound.
    destruct Hbound as [<- | Hbound]; [discriminate Hupper |].
    exact Hbound.
  - intros Hk. split.
    + revert k Hk. apply forallb_forall. reflexivity.
    + exact (exec_module_bound _ _ _ _ settings_loaded (fields_binds _ _ Hk)).
Qed.



(** X8: every field but [DEFAUT_METADATA] holds an object of an immutable
    type ([None], a boolean, an integer, a string or a tuple of tuples of
    strings); [DEFAUT_METADATA] holds a dict, which is not. *)
Theorem fields_hold_immutable_objects_but_metadata (ns0 : namespace) :
  exists ns,
    exec_module pelicanconf ns0 = Ok ns /\
    Forall (fun k => exists v,
                ns !! k = Some v /\
                immutable v = negb (String.eqb k "DEFAUT_METADATA"))
           (fields pelicanconf).
Proof.
  exists (settings ∪ ns0). split; [apply pelicanconf_loads |].
  assert (Hsettings :
            Forall (fun k => exists v,
                        settings !! k = Some v /\
                        immutable v = negb (String.eqb k "DEFAUT_METADATA"))
                   (fields pelicanconf)).
  { repeat constructor; eexists; (split; [reflexivity |]); reflexivity. }
  apply (List.Forall_impl _ (P := fun k => exists v,
            settings !! k = Some v /\
            immutable v = negb (String.eqb k "DEFAUT_METADATA")));
    [| exact Hsettings].
  intros k (v & Hv & Himm). exists v. split; [| exact Himm].
  apply loaded_field, Hv.
Qed.

End OtherSettings.
